(** * Research Article Finder: the request/response contract of [src/index.tsx]

    The file embeds the logic of the [App] component: the submit handler
    [handleSearch] (guard, state resets, the single generation call, the
    mapping of the response or of the thrown error into component state) and
    the parts of the render that decide what is shown (submit button, error
    panel, result panel, source links).  Styling is left out. *)

From Stdlib Require Import List Arith NArith Bool String Ascii Lia.
Import ListNotations.

(** ** JavaScript strings

    A JavaScript string is a sequence of UTF-16 code units.  [String.prototype.trim]
    removes WhiteSpace and LineTerminator code points from both ends; every one
    of them is a single code unit. *)

Module JS.

Definition jsstring := list N.

(** The code units of an ASCII literal of the source. *)
Definition lit (s : string) : jsstring :=
  map N_of_ascii (list_ascii_of_string s).

(** ECMAScript WhiteSpace (TAB, VT, FF, ZWNBSP and the Unicode space
    separators) and LineTerminator (LF, CR, LS, PS). *)
Definition isWhiteSpace (c : N) : bool :=
  existsb (N.eqb c)
    [9; 10; 11; 12; 13; 32; 160; 5760; 8232; 8233; 8239; 8287; 12288; 65279]%N
  || ((8192 <=? c) && (c <=? 8202))%N.

Fixpoint trimStart (s : jsstring) : jsstring :=
  match s with
  | [] => []
  | c :: s' => if isWhiteSpace c then trimStart s' else s
  end.

Definition trimEnd (s : jsstring) : jsstring := rev (trimStart (rev s)).

Definition trim (s : jsstring) : jsstring := trimEnd (trimStart s).

(** ToBoolean on a string: only the empty string is falsy. *)
Definition truthy (s : jsstring) : bool :=
  match s with
  | [] => false
  | _ :: _ => true
  end.

(** [x || d] where [x] is a string or [undefined]. *)
Definition orElse (x : option jsstring) (d : jsstring) : jsstring :=
  match x with
  | Some s => if truthy s then s else d
  | None => d
  end.

(** [s.startsWith(p)] and [s.includes(p)]. *)
Fixpoint startsWith (s p : jsstring) {struct p} : bool :=
  match p, s with
  | [], _ => true
  | _ :: _, [] => false
  | c :: p', d :: s' => (c =? d)%N && startsWith s' p'
  end.

Fixpoint includes (s p : jsstring) : bool :=
  startsWith s p
  || match s with
     | [] => false
     | _ :: s' => includes s' p
     end.

End JS.

Import JS.

(** ** Data model (lines 9-19 and the parts of the SDK response that are read) *)

(** [web?: { uri: string; title: string }].  The render guards the title with
    [||], so the title is modelled as it arrives at run time: possibly absent. *)
Record Web := { uri : jsstring; title : option jsstring }.

Record GroundingChunk := { web : option Web }.

Record SearchResult := { text : jsstring; chunks : list GroundingChunk }.

Record GroundingMetadata := { groundingChunks : option (list GroundingChunk) }.

Record Candidate := { groundingMetadata : option GroundingMetadata }.

(** The response of [ai.models.generateContent]: its [text] accessor and its
    [candidates]. *)
Record GenerateContentResponse := {
  response_text : option jsstring;
  candidates : option (list Candidate)
}.

(** The value caught by [catch (err: any)]: an object whose [message] is read. *)
Record ErrorValue := { message : option jsstring }.

Inductive Tool := googleSearch.

Record GenerateContentParameters := {
  model : jsstring;
  contents : jsstring;
  config_tools : list Tool
}.

(** How the awaited promise settles. *)
Inductive Outcome :=
| Fulfilled (response : GenerateContentResponse)
| Rejected (err : ErrorValue).

(** ** The prompt (lines 38-46) *)

Definition dquote : jsstring := [34%N].
Definition newline : jsstring := [10%N].

Definition promptHead : jsstring :=
  lit "Find 5 high-quality research articles, papers, or reputable academic sources published in the last 5 years (2020-2025) related to: ".

Definition promptTailLines : list jsstring :=
  [ lit ". ";
    lit "        ";
    lit "        For each article, provide:";
    lit "        1. Title";
    lit "        2. Authors (if available)";
    lit "        3. Year";
    lit "        4. A brief summary of why it is relevant for a presentation.";
    lit "        ";
    lit "        Use Markdown formatting (bolding titles, using bullet points) to make it easy to read." ].

Fixpoint joinLines (ls : list jsstring) : jsstring :=
  match ls with
  | [] => []
  | [l] => l
  | l :: ls' => l ++ newline ++ joinLines ls'
  end.

Definition promptTail : jsstring := joinLines promptTailLines.

(** The template literal with [${topic}] filled in. *)
Definition prompt (topic : jsstring) : jsstring :=
  promptHead ++ dquote ++ topic ++ dquote ++ promptTail.

Definition request (topic : jsstring) : GenerateContentParameters :=
  {| model := lit "gemini-3-flash-preview";
     contents := prompt topic;
     config_tools := [googleSearch] |}.

(** ** Component state and the submit handler (lines 22-62) *)

Record State := {
  topic : jsstring;
  loading : bool;
  result : option SearchResult;
  error : jsstring
}.

Definition initialState : State :=
  {| topic := []; loading := false; result := None; error := [] |}.

(** What the handler does to the outside, in program order. *)
Inductive Effect :=
| PreventDefault
| SetLoading (b : bool)
| SetError (s : jsstring)
| SetResult (r : option SearchResult).

(** [handleSearch] has one [await]: it either returns before it, or runs a
    first segment, issues the call, and resumes with how the call settled. *)
Inductive Handler :=
| Return (effects : list Effect)
| Await (effects : list Effect) (call : GenerateContentParameters)
        (resume : Outcome -> list Effect).

Definition noResultsFound : jsstring := lit "No results found.".
Definition fetchErrorFallback : jsstring :=
  lit "An error occurred while fetching articles.".

(** [response.candidates?.[0]?.groundingMetadata?.groundingChunks || []]
    (an array, even an empty one, is truthy). *)
Definition groundingChunksOf (response : GenerateContentResponse)
  : list GroundingChunk :=
  match candidates response with
  | Some (c :: _) =>
      match groundingMetadata c with
      | Some gm =>
          match groundingChunks gm with
          | Some cs => cs
          | None => []
          end
      | None => []
      end
  | Some [] => []
  | None => []
  end.

(** Lines 52-56: the object passed to [setResult]. *)
Definition searchResultOf (response : GenerateContentResponse) : SearchResult :=
  {| text := orElse (response_text response) noResultsFound;
     chunks := groundingChunksOf response |}.

(** The [try] body after the await, the [catch] and the [finally]. *)
Definition resumeSearch (o : Outcome) : list Effect :=
  match o with
  | Fulfilled response =>
      [SetResult (Some (searchResultOf response)); SetLoading false]
  | Rejected err =>
      [SetError (orElse (message err) fetchErrorFallback); SetLoading false]
  end.

Definition handleSearch (topic : jsstring) : Handler :=
  if negb (truthy (trim topic)) then Return [PreventDefault]
  else
    Await [PreventDefault; SetLoading true; SetError []; SetResult None]
          (request topic)
          resumeSearch.

(** The calls a run of the handler issues. *)
Definition externalCalls (h : Handler) : list GenerateContentParameters :=
  match h with
  | Return _ => []
  | Await _ call _ => [call]
  end.

Definition firstSegment (h : Handler) : list Effect :=
  match h with
  | Return effects => effects
  | Await effects _ _ => effects
  end.

(** State setters; the updates of one synchronous segment are applied in
    order and committed together (the root is made with [createRoot]). *)
Definition applyEffect (s : State) (e : Effect) : State :=
  match e with
  | PreventDefault => s
  | SetLoading b =>
      {| topic := topic s; loading := b; result := result s; error := error s |}
  | SetError m =>
      {| topic := topic s; loading := loading s; result := result s; error := m |}
  | SetResult r =>
      {| topic := topic s; loading := loading s; result := r; error := error s |}
  end.

Definition commit (effects : list Effect) (s : State) : State :=
  fold_left applyEffect effects s.

(** ** Render (lines 64-359), reduced to what the state decides *)

(** A render either produces its value or throws (the [TypeError] of
    [new URL]). *)
Inductive Completion (A : Type) :=
| Normal (a : A)
| Throw.

Arguments Normal {A} a.
Arguments Throw {A}.

Definition bind {A B : Type} (c : Completion A) (k : A -> Completion B)
  : Completion B :=
  match c with
  | Normal a => k a
  | Throw => Throw
  end.

Notation "x <- c ;; k" := (bind c (fun x => k))
  (at level 61, c at next level, right associativity).

(** One [<li>] of the source list. *)
Record SourceLink := {
  key : nat;
  href : jsstring;
  linkTitle : jsstring;
  hostname : jsstring
}.

Inductive Sidebar :=
| SourceList (items : list (option SourceLink))
| NoSourceLinks.

Record ResultPanel := { markdown : jsstring; sources : Sidebar }.

Record View := {
  inputValue : jsstring;
  submitDisabled : bool;
  submitLabel : jsstring;
  errorPanel : option jsstring;
  resultPanel : option ResultPanel
}.

Definition untitledSource : jsstring := lit "Untitled Source".

(** Line 132: [disabled={loading || !topic}]. *)
Definition disabled (s : State) : bool :=
  loading s || negb (truthy (topic s)).

Section Render.

(** [new URL(s).hostname] of the platform: [None] when the constructor throws. *)
Variable URL_hostname : jsstring -> option jsstring.

(** The callback of [result.chunks.map] (lines 285-348). *)
Definition renderChunk (chunk : GroundingChunk) (index : nat)
  : Completion (option SourceLink) :=
  match web chunk with
  | None => Normal None
  | Some w =>
      let shownTitle := orElse (title w) untitledSource in
      match URL_hostname (uri w) with
      | Some h =>
          Normal (Some {| key := index; href := uri w;
                          linkTitle := shownTitle; hostname := h |})
      | None => Throw
      end
  end.

Fixpoint mapChunks (cs : list GroundingChunk) (index : nat)
  : Completion (list (option SourceLink)) :=
  match cs with
  | [] => Normal []
  | c :: cs' =>
      li <- renderChunk c index ;;
      lis <- mapChunks cs' (S index) ;;
      Normal (li :: lis)
  end.

(** Lines 283-354. *)
Definition renderSidebar (r : SearchResult) : Completion Sidebar :=
  if (0 <? List.length (chunks r))%nat
  then items <- mapChunks (chunks r) 0 ;; Normal (SourceList items)
  else Normal NoSourceLinks.

Definition renderResult (r : SearchResult) : Completion ResultPanel :=
  side <- renderSidebar r ;;
  Normal {| markdown := text r; sources := side |}.

Definition render (s : State) : Completion View :=
  panel <- match result s with
           | Some r => p <- renderResult r ;; Normal (Some p)
           | None => Normal None
           end ;;
  Normal {| inputValue := topic s;
            submitDisabled := disabled s;
            submitLabel := if loading s then lit "Searching..."
                           else lit "Find Articles";
            errorPanel := if truthy (error s) then Some (error s) else None;
            resultPanel := panel |}.

End Render.

(** The list entries that display something ([null] displays nothing). *)
Definition displayed (items : list (option SourceLink)) : list SourceLink :=
  flat_map (fun li => match li with Some l => [l] | None => [] end) items.

Definition hasWeb (c : GroundingChunk) : bool :=
  match web c with
  | Some _ => true
  | None => false
  end.

Definition websOf (cs : list GroundingChunk) : list Web :=
  flat_map (fun c => match web c with Some w => [w] | None => [] end) cs.

(** The (uri, title) pair a citation shows. *)
Definition citationOfLink (l : SourceLink) : jsstring * jsstring :=
  (href l, linkTitle l).

Definition citationOfWeb (w : Web) : jsstring * jsstring :=
  (uri w, orElse (title w) untitledSource).

(** ** A stand-in for the platform's URL parser

    The first steps of the URL Standard's basic parser: leading and trailing
    C0 controls and spaces are stripped, ASCII tab and newline are removed,
    and with no base URL the input parses only if it then starts with a
    scheme (an ASCII letter, then letters, digits, [+], [-] or [.], then
    [:]).  Where this stand-in fails, so does the platform.  For an input
    [scheme://host...] the host is read up to the next [/], [?] or [#], and
    any other input with a scheme is given the empty host; user information,
    ports and the validation and normalisation of hosts are not modelled.
    It serves to instantiate the render at concrete inputs. *)

Definition isAsciiAlpha (c : N) : bool :=
  ((65 <=? c) && (c <=? 90) || (97 <=? c) && (c <=? 122))%N.

Definition isSchemeChar (c : N) : bool :=
  isAsciiAlpha c || ((48 <=? c) && (c <=? 57))%N
  || existsb (N.eqb c) [43; 45; 46]%N.

Fixpoint afterScheme (s : jsstring) : option jsstring :=
  match s with
  | [] => None
  | c :: s' =>
      if (c =? 58)%N then Some s'
      else if isSchemeChar c then afterScheme s'
      else None
  end.

Fixpoint upToDelimiter (s : jsstring) : jsstring :=
  match s with
  | [] => []
  | c :: s' =>
      if existsb (N.eqb c) [47; 63; 35]%N then [] else c :: upToDelimiter s'
  end.

Fixpoint stripLeading (s : jsstring) : jsstring :=
  match s with
  | [] => []
  | c :: s' => if (c <=? 32)%N then stripLeading s' else s
  end.

Definition cleanInput (s : jsstring) : jsstring :=
  filter (fun c => negb (existsb (N.eqb c) [9; 10; 13]%N))
         (rev (stripLeading (rev (stripLeading s)))).

Definition schemeHostname (s : jsstring) : option jsstring :=
  match cleanInput s with
  | [] => None
  | c :: s' =>
      if isAsciiAlpha c then
        match afterScheme s' with
        | Some (47 :: 47 :: authority)%N => Some (upToDelimiter authority)
        | Some _ => Some []
        | None => None
        end
      else None
  end.

(** ** The running application

    Besides the component state, the continuations of the calls that have not
    settled yet.  Events: typing into the input, submitting the form (possible
    only while the submit button is not disabled: a click on a disabled button
    does nothing, and implicit submission goes through the same button), and
    the settling of an outstanding call.  That a render which throws unmounts
    the component is not modelled: the applications reached here include the
    ones a mounted component reaches. *)

Record App := {
  state : State;
  pending : list (Outcome -> list Effect)
}.

Definition initialApp : App := {| state := initialState; pending := [] |}.

Inductive Event :=
| Change (value : jsstring)
| Submit
| Settle (n : nat) (o : Outcome).

Definition setTopic (value : jsstring) (s : State) : State :=
  {| topic := value; loading := loading s; result := result s;
     error := error s |}.

Definition removeAt {A : Type} (n : nat) (l : list A) : list A :=
  firstn n l ++ skipn (S n) l.

(** Running [handleSearch] against the current state, whoever invokes it. *)
Definition invokeHandleSearch (a : App) : App :=
  match handleSearch (topic (state a)) with
  | Return effects =>
      {| state := commit effects (state a); pending := pending a |}
  | Await effects _ resume =>
      {| state := commit effects (state a);
         pending := pending a ++ [resume] |}
  end.

Definition fire (a : App) (e : Event) : option App :=
  match e with
  | Change value =>
      Some {| state := setTopic value (state a); pending := pending a |}
  | Submit =>
      if disabled (state a) then None else Some (invokeHandleSearch a)
  | Settle n o =>
      match nth_error (pending a) n with
      | Some resume =>
          Some {| state := commit (resume o) (state a);
                  pending := removeAt n (pending a) |}
      | None => None
      end
  end.

Fixpoint run (a : App) (events : list Event) : option App :=
  match events with
  | [] => Some a
  | e :: events' =>
      match fire a e with
      | Some a' => run a' events'
      | None => None
      end
  end.

Inductive reachable : App -> Prop :=
| reachable_initial : reachable initialApp
| reachable_fire a e a' :
    reachable a -> fire a e = Some a' -> reachable a'.

(** ** RequestState

    The four variants of the specification, read off the three state fields
    the way the view shows them. *)

Inductive Variant := Idle | Loading | Succeeded | Failed.

Definition hasResult (s : State) : bool :=
  match result s with
  | Some _ => true
  | None => false
  end.

Definition hasError (s : State) : bool := truthy (error s).

Definition active (v : Variant) (s : State) : bool :=
  match v with
  | Idle => negb (loading s) && negb (hasResult s) && negb (hasError s)
  | Loading => loading s
  | Succeeded => hasResult s
  | Failed => hasError s
  end.

Definition exactlyOneActive (s : State) : Prop :=
  exists v, active v s = true /\ forall v', active v' s = true -> v' = v.

(** The shape of the fields in each variant. *)
Definition isIdle (s : State) : Prop :=
  loading s = false /\ result s = None /\ error s = [].

Definition isLoading (s : State) : Prop :=
  loading s = true /\ result s = None /\ error s = [].

Definition isSucceeded (r : SearchResult) (s : State) : Prop :=
  loading s = false /\ result s = Some r /\ error s = [].

Definition isFailed (m : jsstring) (s : State) : Prop :=
  loading s = false /\ result s = None /\ error s = m /\ m <> [].

(** What the events preserve: a call is outstanding exactly while [loading]
    is set, there is at most one, it resumes with the handler's continuation,
    and [result] and [error] are not populated together. *)
Definition coherent (a : App) : Prop :=
  (isLoading (state a) /\ pending a = [resumeSearch])
  \/ (loading (state a) = false /\ pending a = []
      /\ (result (state a) = None \/ error (state a) = [])).

(** ** Concrete inputs for the examples *)

(** A response whose first candidate carries the grounding chunks [cs]. *)
Definition responseWith (t : option jsstring) (cs : list GroundingChunk)
  : GenerateContentResponse :=
  {| response_text := t;
     candidates :=
       Some [ {| groundingMetadata :=
                   Some {| groundingChunks := Some cs |} |} ] |}.

Definition chunkOf (u : string) (t : option jsstring) : GroundingChunk :=
  {| web := Some {| uri := lit u; title := t |} |}.

Definition noWebChunk : GroundingChunk := {| web := None |}.

(** The application after the user typed a topic. *)
Definition typedApp : App :=
  {| state := {| topic := lit "CRISPR"; loading := false; result := None;
                 error := [] |};
     pending := [] |}.

(** The application after a search that returned one source whose uri has
    no scheme. *)
Definition schemelessResponse : GenerateContentResponse :=
  responseWith (Some (lit "**Paper A**"))
    [chunkOf "example.com/paper" (Some (lit "Paper A"))].

Definition schemelessApp : App :=
  {| state := {| topic := lit "CRISPR"; loading := false;
                 result := Some (searchResultOf schemelessResponse);
                 error := [] |};
     pending := [] |}.

(** The application after a search that returned two sources. *)
Definition paperResponse : GenerateContentResponse :=
  responseWith (Some (lit "**Paper A**..."))
    [chunkOf "https://example.org/a" (Some (lit "Paper A"));
     chunkOf "https://example.org/b" None].

Definition succeededApp : App :=
  {| state := {| topic := lit "CRISPR"; loading := false;
                 result := Some (searchResultOf paperResponse);
                 error := [] |};
     pending := [] |}.

(** The same, with only spaces typed since. *)
Definition blankTopicApp : App :=
  {| state := {| topic := lit "   "; loading := false;
                 result := Some (searchResultOf paperResponse);
                 error := [] |};
     pending := [] |}.

(** The application while the first search is outstanding. *)
Definition loadingApp : App :=
  {| state := {| topic := lit "CRISPR"; loading := true; result := None;
                 error := [] |};
     pending := [resumeSearch] |}.

(** A response that carries no grounding information at all. *)
Definition bareResponse : GenerateContentResponse :=
  {| response_text := Some (lit "**Paper A**..."); candidates := None |}.

(** ** The calls a run of events issues

    Only a submit runs the handler; the calls of a run are those of its
    submits, in order. *)

Definition callsOfEvent (a : App) (e : Event)
  : list GenerateContentParameters :=
  match e with
  | Submit =>
      if disabled (state a) then []
      else externalCalls (handleSearch (topic (state a)))
  | Change _ => []
  | Settle _ _ => []
  end.

Fixpoint callsOfRun (a : App) (events : list Event)
  : list GenerateContentParameters :=
  match events with
  | [] => []
  | e :: events' =>
      match fire a e with
      | Some a' => callsOfEvent a e ++ callsOfRun a' events'
      | None => []
      end
  end.

Definition isSettle (e : Event) : bool :=
  match e with
  | Settle _ _ => true
  | _ => false
  end.

Definition isSubmit (e : Event) : bool :=
  match e with
  | Submit => true
  | _ => false
  end.

(** * Properties *)

(** ** Strings *)

Lemma startsWith_app (p b : jsstring) : startsWith (p ++ b) p = true.
Proof.
  induction p as [|c p IH]; simpl.
  - reflexivity.
  - rewrite N.eqb_refl. exact IH.
Qed.

Lemma startsWith_split (s p : jsstring) :
  startsWith s p = true -> exists b, s = p ++ b.
Proof.
  revert s. induction p as [|c p IH]; intros s H.
  - exists s. reflexivity.
  - destruct s as [|d s]; simpl in H; [discriminate|].
    apply andb_true_iff in H. destruct H as [Hc Hp].
    apply N.eqb_eq in Hc. subst d.
    destruct (IH _ Hp) as [b ->]. exists b. reflexivity.
Qed.

(** [includes] finds exactly the infixes. *)
Lemma includes_spec (s p : jsstring) :
  includes s p = true <-> exists a b, s = a ++ p ++ b.
Proof.
  split.
  - induction s as [|d s IH]; simpl; intros H.
    + rewrite orb_false_r in H. apply startsWith_split in H.
      destruct H as [b Hb]. exists [], b. exact Hb.
    + apply orb_true_iff in H. destruct H as [H|H].
      * apply startsWith_split in H. destruct H as [b Hb].
        exists [], b. exact Hb.
      * destruct (IH H) as (a & b & ->). exists (d :: a), b. reflexivity.
  - intros (a & b & ->). induction a as [|d a IH]; simpl.
    + assert (H : startsWith (p ++ b) p = true) by apply startsWith_app.
      destruct (p ++ b); simpl; rewrite H; reflexivity.
    + rewrite IH. apply orb_true_r.
Qed.

Lemma includes_app_l (s t p : jsstring) :
  includes s p = true -> includes (s ++ t) p = true.
Proof.
  rewrite !includes_spec. intros (a & b & ->).
  exists a, (b ++ t). rewrite <- !app_assoc. reflexivity.
Qed.

Lemma includes_app_r (s t p : jsstring) :
  includes t p = true -> includes (s ++ t) p = true.
Proof.
  rewrite !includes_spec. intros (a & b & ->).
  exists (s ++ a), b. rewrite <- !app_assoc. reflexivity.
Qed.

Lemma trimStart_nil_iff (s : jsstring) :
  trimStart s = [] <-> forallb isWhiteSpace s = true.
Proof.
  induction s as [|c s IH]; simpl.
  - tauto.
  - destruct (isWhiteSpace c); simpl.
    + exact IH.
    + split; discriminate.
Qed.

Lemma trimStart_head (s : jsstring) (c : N) (t : jsstring) :
  trimStart s = c :: t -> isWhiteSpace c = false.
Proof.
  induction s as [|d s IH]; simpl; [discriminate|].
  destruct (isWhiteSpace d) eqn:E; [exact IH|].
  intros H. injection H as -> _. exact E.
Qed.

(** The trimmed value is empty exactly for the empty and the
    whitespace-only strings. *)
Lemma trim_nil_iff (s : jsstring) :
  trim s = [] <-> forallb isWhiteSpace s = true.
Proof.
  unfold trim, trimEnd. split.
  - intros H. apply trimStart_nil_iff.
    destruct (trimStart s) as [|c t] eqn:E; [reflexivity|].
    apply (f_equal (@rev N)) in H. rewrite rev_involutive in H.
    change (rev []) with (@nil N) in H.
    apply trimStart_nil_iff in H. rewrite forallb_forall in H.
    assert (Hc : isWhiteSpace c = true).
    { apply H. rewrite <- in_rev. left. reflexivity. }
    rewrite (trimStart_head s c t E) in Hc. discriminate.
  - intros H. apply trimStart_nil_iff in H. rewrite H. reflexivity.
Qed.

Lemma truthy_false_iff (s : jsstring) : truthy s = false <-> s = [].
Proof. destruct s; simpl; split; congruence. Qed.

Lemma truthy_true_iff (s : jsstring) : truthy s = true <-> s <> [].
Proof. destruct s; simpl; split; congruence. Qed.

Lemma orElse_truthy (x : option jsstring) (d : jsstring) :
  d <> [] -> orElse x d <> [].
Proof.
  intros Hd. destruct x as [s|]; simpl; [|exact Hd].
  destruct s; simpl; [exact Hd|discriminate].
Qed.

(** ** The handler *)

Lemma handleSearch_blank (t : jsstring) :
  trim t = [] -> handleSearch t = Return [PreventDefault].
Proof. intros H. unfold handleSearch. rewrite H. reflexivity. Qed.

Lemma handleSearch_valid (t : jsstring) :
  trim t <> [] ->
  handleSearch t =
    Await [PreventDefault; SetLoading true; SetError []; SetResult None]
          (request t) resumeSearch.
Proof.
  intros H. unfold handleSearch.
  destruct (trim t); [congruence|reflexivity].
Qed.

Lemma state_eta (s : State) :
  {| topic := topic s; loading := loading s; result := result s;
     error := error s |} = s.
Proof. destruct s; reflexivity. Qed.

Lemma invoke_blank (a : App) :
  trim (topic (state a)) = [] -> invokeHandleSearch a = a.
Proof.
  intros H. unfold invokeHandleSearch. rewrite (handleSearch_blank _ H).
  destruct a; reflexivity.
Qed.

Lemma invoke_valid (a : App) :
  trim (topic (state a)) <> [] ->
  invokeHandleSearch a =
    {| state := {| topic := topic (state a); loading := true;
                   result := None; error := [] |};
       pending := pending a ++ [resumeSearch] |}.
Proof.
  intros H. unfold invokeHandleSearch. rewrite (handleSearch_valid _ H).
  reflexivity.
Qed.

(** ** The render *)

Section RenderFacts.

Variable URL_hostname : jsstring -> option jsstring.

Lemma renderChunk_no_web (c : GroundingChunk) (index : nat) :
  web c = None -> renderChunk URL_hostname c index = Normal None.
Proof. intros H. unfold renderChunk. rewrite H. reflexivity. Qed.

Lemma renderChunk_throws (c : GroundingChunk) (w : Web) (index : nat) :
  web c = Some w -> URL_hostname (uri w) = None ->
  renderChunk URL_hostname c index = Throw.
Proof. intros Hw Hu. unfold renderChunk. rewrite Hw, Hu. reflexivity. Qed.

(** One unparseable uri anywhere in the list makes the whole map throw. *)
Lemma mapChunks_throws (cs : list GroundingChunk) (c : GroundingChunk) (w : Web) :
  In c cs -> web c = Some w -> URL_hostname (uri w) = None ->
  forall index, mapChunks URL_hostname cs index = Throw.
Proof.
  intros Hin Hw Hu. induction cs as [|d cs IH]; intros index.
  - destruct Hin.
  - simpl. destruct Hin as [->|Hin].
    + rewrite (renderChunk_throws c w index Hw Hu). reflexivity.
    + rewrite (IH Hin (S index)).
      destruct (renderChunk URL_hostname d index); reflexivity.
Qed.

(** When every web uri parses, the map returns. *)
Lemma mapChunks_returns (cs : list GroundingChunk) :
  (forall w, In w (websOf cs) -> URL_hostname (uri w) <> None) ->
  forall index, exists items, mapChunks URL_hostname cs index = Normal items.
Proof.
  induction cs as [|d cs IH]; intros Hall index.
  - exists []. reflexivity.
  - assert (Hcs : forall w, In w (websOf cs) -> URL_hostname (uri w) <> None).
    { intros w Hw. apply Hall. unfold websOf. simpl. apply in_or_app.
      right. exact Hw. }
    destruct (IH Hcs (S index)) as [items Hitems].
    simpl. unfold renderChunk. destruct (web d) as [w|] eqn:Hd.
    + destruct (URL_hostname (uri w)) as [h|] eqn:Hu.
      * simpl. rewrite Hitems. simpl. eexists. reflexivity.
      * exfalso. apply (Hall w); [|exact Hu].
        unfold websOf. simpl. rewrite Hd. left. reflexivity.
    + simpl. rewrite Hitems. simpl. eexists. reflexivity.
Qed.

(** What a returned map holds: one entry per chunk, and the entries that
    display something are the citations of the web chunks, in order. *)
Lemma mapChunks_items (cs : list GroundingChunk) :
  forall index items,
    mapChunks URL_hostname cs index = Normal items ->
    List.length items = List.length cs
    /\ map citationOfLink (displayed items) = map citationOfWeb (websOf cs).
Proof.
  induction cs as [|d cs IH]; intros index items H.
  - simpl in H. injection H as <-. split; reflexivity.
  - simpl in H. unfold renderChunk in H.
    destruct (web d) as [w|] eqn:Hd.
    + destruct (URL_hostname (uri w)) as [h|]; [|discriminate].
      simpl in H.
      destruct (mapChunks URL_hostname cs (S index)) as [rest|] eqn:Hrest;
        [|discriminate].
      simpl in H. injection H as <-.
      destruct (IH _ _ Hrest) as [Hlen Hshown].
      unfold websOf, displayed in *. simpl. rewrite Hd. simpl.
      split; [congruence|]. f_equal. exact Hshown.
    + simpl in H.
      destruct (mapChunks URL_hostname cs (S index)) as [rest|] eqn:Hrest;
        [|discriminate].
      simpl in H. injection H as <-.
      destruct (IH _ _ Hrest) as [Hlen Hshown].
      unfold websOf, displayed in *. simpl. rewrite Hd. simpl.
      split; [congruence|]. exact Hshown.
Qed.

End RenderFacts.

(** The web chunks are the ones a filter on [web] would keep. *)
Lemma websOf_filter (cs : list GroundingChunk) :
  map web (filter hasWeb cs) = map Some (websOf cs).
Proof.
  induction cs as [|c cs IH]; [reflexivity|].
  unfold websOf, hasWeb in *. simpl.
  destruct (web c) as [w|] eqn:Hc; simpl.
  - rewrite Hc, IH. reflexivity.
  - exact IH.
Qed.

(** ** Reachable applications *)

Lemma reachable_run (events : list Event) :
  forall a a', reachable a -> run a events = Some a' -> reachable a'.
Proof.
  induction events as [|e events IH]; simpl; intros a a' Ha H.
  - injection H as <-. exact Ha.
  - destruct (fire a e) as [a1|] eqn:He; [|discriminate].
    apply (IH a1 a'); [|exact H].
    exact (reachable_fire a e a1 Ha He).
Qed.

Lemma fire_coherent (a : App) (e : Event) (a' : App) :
  coherent a -> fire a e = Some a' -> coherent a'.
Proof.
  intros Hc H. destruct e as [value| |n o]; simpl in H.
  - injection H as <-. exact Hc.
  - destruct (disabled (state a)) eqn:Hd; [discriminate|].
    injection H as <-.
    unfold disabled in Hd. apply orb_false_iff in Hd. destruct Hd as [Hl _].
    destruct Hc as [[[Hl' _] _]|(_ & Hp & Hre)]; [congruence|].
    destruct (trim (topic (state a))) as [|c t] eqn:Ht.
    + rewrite (invoke_blank a Ht). right. auto.
    + rewrite invoke_valid by (rewrite Ht; discriminate).
      left. rewrite Hp. repeat split.
  - destruct Hc as [[(Hl & Hr & He) Hp]|(_ & Hp & _)].
    + rewrite Hp in H.
      destruct n as [|n]; simpl in H; [|destruct n; discriminate].
      injection H as <-. right.
      destruct o as [response|err]; simpl; auto.
    + rewrite Hp in H. destruct n; discriminate.
Qed.

Lemma reachable_coherent (a : App) : reachable a -> coherent a.
Proof.
  induction 1 as [|a e a' _ IH H].
  - right. simpl. auto.
  - exact (fire_coherent a e a' IH H).
Qed.

(** A coherent state shows exactly one variant. *)
Lemma coherent_exactlyOneActive (a : App) :
  coherent a -> exactlyOneActive (state a).
Proof.
  unfold exactlyOneActive, active, hasResult, hasError.
  intros [[(Hl & Hr & He) _]|(Hl & _ & Hre)]; rewrite Hl.
  - rewrite Hr, He. exists Loading. split; [reflexivity|].
    intros [] H; simpl in H; congruence.
  - destruct (result (state a)) as [r|] eqn:Hr.
    + destruct Hre as [Hre|He]; [discriminate|]. rewrite He.
      exists Succeeded. split; [reflexivity|].
      intros [] H; simpl in H; congruence.
    + destruct (truthy (error (state a))) eqn:He.
      * exists Failed. split; [reflexivity|].
        intros [] H; simpl in H; congruence.
      * exists Idle. split; [reflexivity|].
        intros [] H; simpl in H; congruence.
Qed.

Lemma typedApp_reachable : reachable typedApp.
Proof.
  apply (reachable_run [Change (lit "CRISPR")] initialApp);
    [exact reachable_initial|reflexivity].
Qed.

Lemma schemelessApp_reachable : reachable schemelessApp.
Proof.
  apply (reachable_run
           [Change (lit "CRISPR"); Submit;
            Settle 0 (Fulfilled schemelessResponse)] initialApp);
    [exact reachable_initial|reflexivity].
Qed.

Lemma succeededApp_reachable : reachable succeededApp.
Proof.
  apply (reachable_run
           [Change (lit "CRISPR"); Submit; Settle 0 (Fulfilled paperResponse)]
           initialApp);
    [exact reachable_initial|reflexivity].
Qed.

Lemma blankTopicApp_reachable : reachable blankTopicApp.
Proof.
  apply (reachable_run [Change (lit "   ")] succeededApp);
    [exact succeededApp_reachable|reflexivity].
Qed.

(** ** The claims *)

(** C1, as stated, fails: the citations of the SearchResult are not the
    filtered chunk list.  For a response whose only grounding chunk lacks
    [web], the stored list still holds that chunk, and the source list is
    rendered with one [null] entry instead of the "no source links" notice. *)
Lemma C1_counterexample :
  chunks (searchResultOf (responseWith (Some (lit "A")) [noWebChunk]))
    = [noWebChunk]
  /\ filter hasWeb (groundingChunksOf (responseWith (Some (lit "A")) [noWebChunk]))
    = []
  /\ chunks (searchResultOf (responseWith (Some (lit "A")) [noWebChunk]))
    <> filter hasWeb
         (groundingChunksOf (responseWith (Some (lit "A")) [noWebChunk]))
  /\ renderSidebar schemeHostname
       (searchResultOf (responseWith (Some (lit "A")) [noWebChunk]))
     = Normal (SourceList [None]).
Proof. repeat split. discriminate. Qed.

(** C1, amended: the SearchResult keeps the response's grounding chunk list
    unchanged.  At render a chunk lacking [web] is mapped to [null]: the
    rendered list has one entry per chunk, and the entries that display
    something are the citations of the chunks carrying [web] (the ones a
    filter would keep), in order; the map returns when every web uri parses. *)
Theorem C1_chunks_kept_then_mapped_to_null (response : GenerateContentResponse) :
  chunks (searchResultOf response) = groundingChunksOf response
  /\ map web (filter hasWeb (chunks (searchResultOf response)))
     = map Some (websOf (groundingChunksOf response))
  /\ forall (URL_hostname : jsstring -> option jsstring) (index : nat),
       (forall c, web c = None ->
                  renderChunk URL_hostname c index = Normal None)
       /\ (forall items,
             mapChunks URL_hostname (chunks (searchResultOf response)) index
               = Normal items ->
             List.length items = List.length (groundingChunksOf response)
             /\ map citationOfLink (displayed items)
                = map citationOfWeb (websOf (groundingChunksOf response)))
       /\ ((forall w, In w (websOf (groundingChunksOf response)) ->
                      URL_hostname (uri w) <> None) ->
           exists items,
             mapChunks URL_hostname (chunks (searchResultOf response)) index
               = Normal items).
Proof.
  split; [reflexivity|]. split; [apply websOf_filter|].
  intros URL_hostname index. simpl. split; [|split].
  - intros c Hc. exact (renderChunk_no_web URL_hostname c index Hc).
  - intros items Hitems.
    exact (mapChunks_items URL_hostname _ index items Hitems).
  - intros Hall. exact (mapChunks_returns URL_hostname _ Hall index).
Qed.

(** C2: rendering a state whose result holds a web chunk with a uri that
    [new URL] rejects throws; nothing catches it. *)
Theorem C2_render_throws_on_unparseable_uri
    (URL_hostname : jsstring -> option jsstring) (s : State)
    (r : SearchResult) (c : GroundingChunk) (w : Web) :
  result s = Some r -> In c (chunks r) -> web c = Some w ->
  URL_hostname (uri w) = None ->
  render URL_hostname s = Throw.
Proof.
  intros Hr Hin Hw Hu. unfold render, renderResult, renderSidebar.
  rewrite Hr.
  destruct (chunks r) as [|d cs] eqn:Hcs; [destruct Hin|].
  change (0 <? List.length (d :: cs)) with true. cbv iota.
  rewrite (mapChunks_throws URL_hostname (d :: cs) c w Hin Hw Hu 0).
  reflexivity.
Qed.

(** C2 at a state the application reaches: a fulfilled search whose source
    uri is [example.com/paper]. *)
Lemma C2_render_throws_witness :
  reachable schemelessApp
  /\ isSucceeded (searchResultOf schemelessResponse) (state schemelessApp)
  /\ render schemeHostname (state schemelessApp) = Throw.
Proof.
  split; [exact schemelessApp_reachable|]. split; [repeat split|].
  apply (C2_render_throws_on_unparseable_uri schemeHostname
           (state schemelessApp) (searchResultOf schemelessResponse)
           (chunkOf "example.com/paper" (Some (lit "Paper A")))
           {| uri := lit "example.com/paper"; title := Some (lit "Paper A") |}).
  - reflexivity.
  - left. reflexivity.
  - reflexivity.
  - reflexivity.
Defined.

Ltac in_prompt_head :=
  unfold request, contents, prompt; apply includes_app_l;
  vm_compute; reflexivity.

Ltac in_prompt_tail :=
  unfold request, contents, prompt; do 4 apply includes_app_r;
  vm_compute; reflexivity.

(** C3, as stated, fails: a topic of one space is not empty, and submitting
    it issues no call. *)
Lemma C3_counterexample :
  lit " " <> [] /\ externalCalls (handleSearch (lit " ")) = [].
Proof. split; [discriminate|reflexivity]. Qed.

(** C3, amended: for every topic whose trimmed value is not empty, the
    handler issues exactly one generation call; its prompt is a function of
    the topic alone (the fixed template around the topic text), contains the
    literal topic, opens by asking for 5 sources, asks for sources
    "published in the last 5 years", asks per item for title, authors if
    available, year and a relevance summary, and asks for Markdown. *)
Theorem C3_one_call_with_the_prompt (t : jsstring) :
  trim t <> [] ->
  externalCalls (handleSearch t) = [request t]
  /\ config_tools (request t) = [googleSearch]
  /\ contents (request t) = promptHead ++ dquote ++ t ++ dquote ++ promptTail
  /\ includes (contents (request t)) t = true
  /\ startsWith (contents (request t))
       (lit "Find 5 high-quality research articles, papers, or reputable academic sources")
     = true
  /\ includes (contents (request t))
       (lit "published in the last 5 years") = true
  /\ includes (contents (request t)) (lit "1. Title") = true
  /\ includes (contents (request t)) (lit "2. Authors (if available)") = true
  /\ includes (contents (request t)) (lit "3. Year") = true
  /\ includes (contents (request t))
       (lit "4. A brief summary of why it is relevant for a presentation.")
     = true
  /\ includes (contents (request t)) (lit "Use Markdown formatting") = true.
Proof.
  intros Ht. rewrite (handleSearch_valid t Ht).
  split; [reflexivity|]. split; [reflexivity|]. split; [reflexivity|].
  split.
  { apply includes_spec. exists (promptHead ++ dquote), (dquote ++ promptTail).
    change (contents (request t)) with (prompt t). unfold prompt.
    rewrite <- app_assoc. reflexivity. }
  split; [reflexivity|].
  split; [in_prompt_head|].
  repeat split; in_prompt_tail.
Qed.

(** C3 at a topic with a leading space: one call, and the prompt holds the
    topic as typed. *)
Lemma C3_one_call_witness :
  trim (lit " CRISPR applications 2024") <> []
  /\ externalCalls (handleSearch (lit " CRISPR applications 2024"))
     = [request (lit " CRISPR applications 2024")]
  /\ includes (contents (request (lit " CRISPR applications 2024")))
       (lit " CRISPR applications 2024") = true.
Proof.
  assert (H : trim (lit " CRISPR applications 2024") <> [])
    by (vm_compute; discriminate).
  split; [exact H|].
  split; [exact (proj1 (C3_one_call_with_the_prompt _ H))|].
  exact (proj1 (proj2 (proj2 (proj2 (C3_one_call_with_the_prompt _ H))))).
Defined.

(** C4: when the trimmed topic is empty, that is when the topic is empty or
    holds only whitespace, a submit does nothing: the handler returns before
    any setter, issues no call, and leaves the application (loading, result
    and error included) as it was. *)
Theorem C4_blank_submit_is_a_noop (a : App) :
  trim (topic (state a)) = []
  \/ forallb isWhiteSpace (topic (state a)) = true ->
  trim (topic (state a)) = []
  /\ forallb isWhiteSpace (topic (state a)) = true
  /\ handleSearch (topic (state a)) = Return [PreventDefault]
  /\ externalCalls (handleSearch (topic (state a))) = []
  /\ invokeHandleSearch a = a
  /\ forall a', fire a Submit = Some a' -> a' = a.
Proof.
  intros Hblank.
  assert (Hws : trim (topic (state a)) = [])
    by (destruct Hblank as [H|H]; [exact H|apply trim_nil_iff; exact H]).
  pose proof (handleSearch_blank _ Hws) as Hh.
  pose proof (invoke_blank a Hws) as Hi.
  split; [exact Hws|]. split; [apply trim_nil_iff; exact Hws|].
  split; [exact Hh|].
  split; [rewrite Hh; reflexivity|]. split; [exact Hi|].
  intros a' H. simpl in H.
  destruct (disabled (state a)); [discriminate|].
  injection H as <-. exact Hi.
Qed.

(** C4 at a Succeeded state with three spaces typed: the submit leaves it
    as it is. *)
Lemma C4_blank_submit_witness :
  forallb isWhiteSpace (topic (state blankTopicApp)) = true
  /\ externalCalls (handleSearch (topic (state blankTopicApp))) = []
  /\ fire blankTopicApp Submit = Some blankTopicApp.
Proof.
  destruct (C4_blank_submit_is_a_noop blankTopicApp (or_intror eq_refl))
    as (_ & _ & _ & Hcalls & Hi & _).
  split; [reflexivity|]. split; [exact Hcalls|].
  transitivity (Some (invokeHandleSearch blankTopicApp));
    [reflexivity|rewrite Hi; reflexivity].
Defined.

(** C5: when the call is rejected, the state becomes Failed with the
    error's message if it has a non-empty one, and with the generic fallback
    otherwise; a rejection with message "quota exceeded" gives
    Failed("quota exceeded"). *)
Theorem C5_rejection_becomes_failed (a : App) (err : ErrorValue) :
  reachable a -> disabled (state a) = false -> trim (topic (state a)) <> [] ->
  exists a1 a2,
    fire a Submit = Some a1
    /\ fire a1 (Settle 0 (Rejected err)) = Some a2
    /\ isFailed (orElse (message err) fetchErrorFallback) (state a2)
    /\ (forall m, message err = Some m -> m <> [] -> isFailed m (state a2))
    /\ (message err = None \/ message err = Some [] ->
        isFailed (lit "An error occurred while fetching articles.") (state a2))
    /\ (message err = Some (lit "quota exceeded") ->
        isFailed (lit "quota exceeded") (state a2)).
Proof.
  intros Hreach Hd Ht.
  pose proof (reachable_coherent a Hreach) as Hc.
  assert (Hp : pending a = []).
  { unfold disabled in Hd. apply orb_false_iff in Hd. destruct Hd as [Hl _].
    destruct Hc as [[[Hl' _] _]|(_ & Hp & _)]; [congruence|exact Hp]. }
  exists (invokeHandleSearch a).
  exists {| state := {| topic := topic (state a); loading := false;
                        result := None;
                        error := orElse (message err) fetchErrorFallback |};
            pending := [] |}.
  assert (Hfailed : forall m, orElse (message err) fetchErrorFallback = m ->
                              m <> [] ->
    isFailed m
      {| topic := topic (state a); loading := false; result := None;
         error := orElse (message err) fetchErrorFallback |}).
  { intros m Hm Hne. repeat split; simpl; assumption. }
  split; [simpl; rewrite Hd; reflexivity|].
  split; [rewrite (invoke_valid a Ht), Hp; reflexivity|].
  simpl. split.
  { apply Hfailed; [reflexivity|]. apply orElse_truthy. discriminate. }
  split.
  { intros m Hm Hne. apply Hfailed; [|exact Hne].
    rewrite Hm. simpl. destruct m; [congruence|reflexivity]. }
  split.
  { intros [Hm|Hm]; (apply Hfailed; [rewrite Hm; reflexivity|discriminate]). }
  intros Hm. apply Hfailed; [rewrite Hm; reflexivity|discriminate].
Qed.

(** C5 at the scenario of the specification. *)
Lemma C5_quota_exceeded_witness :
  exists a1 a2,
    fire typedApp Submit = Some a1
    /\ fire a1 (Settle 0 (Rejected {| message := Some (lit "quota exceeded") |}))
       = Some a2
    /\ isFailed (lit "quota exceeded") (state a2).
Proof.
  destruct (C5_rejection_becomes_failed typedApp
              {| message := Some (lit "quota exceeded") |}
              typedApp_reachable eq_refl)
    as (a1 & a2 & H1 & H2 & _ & _ & _ & Hq).
  - vm_compute. discriminate.
  - exists a1, a2. split; [exact H1|]. split; [exact H2|].
    apply Hq. reflexivity.
Defined.

(** C6, as stated, fails in its last part: not any submit from a terminal
    state resets to Loading.  With a result shown and only spaces typed, the
    button is enabled, the submit goes through, and the state stays
    Succeeded. *)
Lemma C6_counterexample :
  reachable blankTopicApp
  /\ active Succeeded (state blankTopicApp) = true
  /\ (exists v, render schemeHostname (state blankTopicApp) = Normal v
                /\ submitDisabled v = false)
  /\ fire blankTopicApp Submit = Some blankTopicApp
  /\ active Loading (state blankTopicApp) = false.
Proof.
  split; [exact blankTopicApp_reachable|]. split; [reflexivity|].
  split; [eexists; split; reflexivity|]. split; reflexivity.
Qed.

(** C6, amended: the application starts Idle; in every state it reaches exactly one
    of Idle, Loading, Succeeded, Failed is active ([result] and [error] are
    not populated together, and neither is while loading); and every event
    follows the lifecycle: typing leaves the request state alone, a submit is
    possible only when not Loading and, for a topic that passes the guard,
    resets to Loading, and a call settles only from Loading, into Succeeded
    or Failed. *)
Theorem C6_request_state_lifecycle (a : App) :
  reachable a ->
  isIdle (state initialApp)
  /\ exactlyOneActive (state a)
  /\ (result (state a) = None \/ error (state a) = [])
  /\ (loading (state a) = true ->
      result (state a) = None /\ error (state a) = [])
  /\ forall e a', fire a e = Some a' ->
       match e with
       | Change _ =>
           loading (state a') = loading (state a)
           /\ result (state a') = result (state a)
           /\ error (state a') = error (state a)
       | Submit =>
           loading (state a) = false
           /\ if truthy (trim (topic (state a)))
              then isLoading (state a') else a' = a
       | Settle _ (Fulfilled response) =>
           isLoading (state a)
           /\ isSucceeded (searchResultOf response) (state a')
       | Settle _ (Rejected err) =>
           isLoading (state a)
           /\ isFailed (orElse (message err) fetchErrorFallback) (state a')
       end.
Proof.
  intros Hreach. pose proof (reachable_coherent a Hreach) as Hc.
  split; [repeat split|].
  split; [exact (coherent_exactlyOneActive a Hc)|].
  split.
  { destruct Hc as [[(_ & Hr & _) _]|(_ & _ & Hre)]; auto. }
  split.
  { intros Hl. destruct Hc as [[(_ & Hr & He) _]|(Hl' & _)];
      [auto|congruence]. }
  intros e a' H. destruct e as [value| |n o]; simpl in H.
  - injection H as <-. repeat split.
  - destruct (disabled (state a)) eqn:Hd; [discriminate|].
    injection H as <-.
    unfold disabled in Hd. apply orb_false_iff in Hd. destruct Hd as [Hl _].
    split; [exact Hl|].
    destruct (trim (topic (state a))) as [|c t] eqn:Ht.
    + exact (invoke_blank a Ht).
    + simpl. rewrite invoke_valid by (rewrite Ht; discriminate).
      repeat split.
  - destruct Hc as [[Hload Hp]|(_ & Hp & _)].
    + rewrite Hp in H.
      destruct n as [|n]; simpl in H; [|destruct n; discriminate].
      injection H as <-. destruct Hload as (Hl & Hr & He).
      destruct o as [response|err]; (split; [repeat split; assumption|]).
      * repeat split; simpl; assumption.
      * repeat split; simpl; try assumption.
        apply orElse_truthy. discriminate.
    + rewrite Hp in H. destruct n; discriminate.
Qed.

(** C6 at the state after a fulfilled search. *)
Lemma C6_lifecycle_witness :
  reachable succeededApp
  /\ exactlyOneActive (state succeededApp)
  /\ active Succeeded (state succeededApp) = true.
Proof.
  split; [exact succeededApp_reachable|].
  split; [|reflexivity].
  exact (proj1 (proj2
           (C6_request_state_lifecycle succeededApp succeededApp_reachable))).
Defined.

(** Without the disabled button the handler does not keep the invariant:
    invoked again while a call is outstanding, the first call's result and
    the second call's error end up populated together. *)
Remark handleSearch_reentered_populates_both :
  exists a',
    run (invokeHandleSearch (invokeHandleSearch typedApp))
        [Settle 0 (Fulfilled paperResponse);
         Settle 0 (Rejected {| message := None |})] = Some a'
    /\ hasResult (state a') = true /\ hasError (state a') = true.
Proof. eexists. split; [reflexivity|]. split; reflexivity. Qed.

(** C7: on a submit whose topic passes the guard, the first segment of the
    handler (before the call is issued and awaited) sets loading and clears
    error and result, whatever they held: the state committed while the call
    is outstanding is Loading with no result and no error, and its view shows
    neither panel. *)
Theorem C7_payload_cleared_before_the_call (a : App) :
  trim (topic (state a)) <> [] ->
  handleSearch (topic (state a))
    = Await [PreventDefault; SetLoading true; SetError []; SetResult None]
            (request (topic (state a))) resumeSearch
  /\ isLoading (state (invokeHandleSearch a))
  /\ pending (invokeHandleSearch a) = pending a ++ [resumeSearch]
  /\ (disabled (state a) = false -> fire a Submit = Some (invokeHandleSearch a))
  /\ forall URL_hostname : jsstring -> option jsstring,
       exists v,
         render URL_hostname (state (invokeHandleSearch a)) = Normal v
         /\ errorPanel v = None /\ resultPanel v = None
         /\ submitLabel v = lit "Searching...".
Proof.
  intros Ht. split; [exact (handleSearch_valid _ Ht)|].
  rewrite (invoke_valid a Ht). simpl.
  split; [repeat split|]. split; [reflexivity|].
  split; [intros Hd; rewrite Hd, (invoke_valid a Ht); reflexivity|].
  intros URL_hostname. eexists. split; [reflexivity|]. repeat split.
Qed.

(** C7 at a re-submit from a Succeeded state. *)
Lemma C7_payload_cleared_witness :
  trim (topic (state succeededApp)) <> []
  /\ result (state succeededApp) <> None
  /\ isLoading (state (invokeHandleSearch succeededApp)).
Proof.
  assert (H : trim (topic (state succeededApp)) <> [])
    by (vm_compute; discriminate).
  split; [exact H|]. split; [discriminate|].
  exact (proj1 (proj2 (C7_payload_cleared_before_the_call succeededApp H))).
Defined.

(** C8: a response with non-empty text T and an empty grounding chunk list
    gives the SearchResult with text T and no chunks; it renders as T with
    the "no source links" notice. *)
Theorem C8_text_round_trip (response : GenerateContentResponse) (T : jsstring) :
  response_text response = Some T -> T <> [] ->
  groundingChunksOf response = [] ->
  searchResultOf response = {| text := T; chunks := [] |}
  /\ forall URL_hostname : jsstring -> option jsstring,
       renderResult URL_hostname (searchResultOf response)
       = Normal {| markdown := T; sources := NoSourceLinks |}.
Proof.
  intros Ht Hne Hcs.
  assert (H : searchResultOf response = {| text := T; chunks := [] |}).
  { unfold searchResultOf. rewrite Ht, Hcs. simpl.
    destruct T; [congruence|reflexivity]. }
  split; [exact H|]. intros URL_hostname. rewrite H. reflexivity.
Qed.

(** C8 at a concrete response. *)
Lemma C8_text_round_trip_witness :
  groundingChunksOf (responseWith (Some (lit "**Paper A**...")) []) = []
  /\ searchResultOf (responseWith (Some (lit "**Paper A**...")) [])
     = {| text := lit "**Paper A**..."; chunks := [] |}.
Proof.
  split; [reflexivity|].
  apply (C8_text_round_trip (responseWith (Some (lit "**Paper A**...")) [])
           (lit "**Paper A**...")).
  - reflexivity.
  - discriminate.
  - reflexivity.
Defined.

(** C9: when the response's text is absent or empty, the SearchResult's text
    is "No results found.". *)
Theorem C9_no_results_sentinel (response : GenerateContentResponse) :
  response_text response = None \/ response_text response = Some [] ->
  text (searchResultOf response) = lit "No results found.".
Proof. intros [H|H]; simpl; rewrite H; reflexivity. Qed.

(** C9 at an absent and at an empty text. *)
Lemma C9_no_results_witness :
  text (searchResultOf (responseWith None [])) = lit "No results found."
  /\ text (searchResultOf (responseWith (Some []) [])) = lit "No results found.".
Proof.
  split.
  - apply (C9_no_results_sentinel (responseWith None [])).
    left. reflexivity.
  - apply (C9_no_results_sentinel (responseWith (Some []) [])).
    right. reflexivity.
Defined.

(** C10: for a chunk with web data whose title is absent or empty, the title
    the citation shows is "Untitled Source": the [<li>] rendered for it
    carries that title (the render of the item returns exactly when its uri
    parses). *)
Theorem C10_untitled_source_fallback
    (URL_hostname : jsstring -> option jsstring) (w : Web) (index : nat) :
  title w = None \/ title w = Some [] ->
  citationOfWeb w = (uri w, lit "Untitled Source")
  /\ renderChunk URL_hostname {| web := Some w |} index
     = match URL_hostname (uri w) with
       | Some h =>
           Normal (Some {| key := index; href := uri w;
                           linkTitle := lit "Untitled Source";
                           hostname := h |})
       | None => Throw
       end.
Proof.
  intros H. unfold citationOfWeb, renderChunk. simpl.
  assert (Ht : orElse (title w) untitledSource = lit "Untitled Source")
    by (destruct H as [H|H]; rewrite H; reflexivity).
  rewrite Ht. split; reflexivity.
Qed.

(** C10 at a chunk with an empty title and a uri that parses. *)
Lemma C10_untitled_source_witness :
  renderChunk schemeHostname
    (chunkOf "https://example.org/paper" (Some [])) 0
  = Normal (Some {| key := 0; href := lit "https://example.org/paper";
                    linkTitle := lit "Untitled Source";
                    hostname := lit "example.org" |}).
Proof.
  exact (proj2 (C10_untitled_source_fallback schemeHostname
                  {| uri := lit "https://example.org/paper";
                     title := Some [] |} 0 (or_intror eq_refl))).
Defined.

(** * Further properties of the component *)

(** ** Helper facts *)

Lemma loadingApp_reachable : reachable loadingApp.
Proof.
  apply (reachable_run [Change (lit "CRISPR"); Submit] initialApp);
    [exact reachable_initial|reflexivity].
Qed.

Lemma trim_nonempty (t : jsstring) : trim t <> [] -> t <> [].
Proof. intros H ->. apply H. reflexivity. Qed.

(** No effect of the handler writes the topic. *)
Lemma commit_topic (effects : list Effect) :
  forall s, topic (commit effects s) = topic s.
Proof.
  unfold commit. induction effects as [|e effects IH]; intros s; simpl.
  - reflexivity.
  - rewrite IH. destruct e; reflexivity.
Qed.

Lemma not_loading_nothing_pending (a : App) :
  reachable a -> loading (state a) = false -> pending a = [].
Proof.
  intros Hreach Hl.
  destruct (reachable_coherent a Hreach) as [[[Hl' _] _]|(_ & Hp & _)];
    [congruence|exact Hp].
Qed.

Lemma loading_one_pending (a : App) :
  reachable a -> loading (state a) = true ->
  pending a = [resumeSearch]
  /\ result (state a) = None /\ error (state a) = [].
Proof.
  intros Hreach Hl.
  destruct (reachable_coherent a Hreach) as [[(_ & Hr & He) Hp]|(Hl' & _)];
    [auto|congruence].
Qed.

(** ** Submitting *)

(** X1: what a submit does is decided by the topic in three ways.  With an
    empty topic the button is disabled and no submit happens; with a
    non-empty topic of whitespace only the button is enabled and the submit
    changes nothing; with any other topic the submit moves to Loading with
    exactly one call outstanding and the topic kept. *)
Theorem X1_submit_by_topic (a : App) :
  reachable a -> loading (state a) = false ->
  (topic (state a) = [] -> fire a Submit = None)
  /\ (topic (state a) <> [] -> trim (topic (state a)) = [] ->
      fire a Submit = Some a)
  /\ (trim (topic (state a)) <> [] ->
      fire a Submit
      = Some {| state := {| topic := topic (state a); loading := true;
                            result := None; error := [] |};
                pending := [resumeSearch] |}).
Proof.
  intros Hreach Hl.
  pose proof (not_loading_nothing_pending a Hreach Hl) as Hp.
  assert (Hd : forall t, topic (state a) = t -> t <> [] ->
                         disabled (state a) = false).
  { intros t Ht Hne. unfold disabled. rewrite Hl, Ht.
    destruct t; [congruence|reflexivity]. }
  split; [|split].
  - intros Ht. simpl. unfold disabled. rewrite Hl, Ht. reflexivity.
  - intros Hne Ht. simpl. rewrite (Hd _ eq_refl Hne).
    rewrite (invoke_blank a Ht). reflexivity.
  - intros Ht. simpl. rewrite (Hd _ eq_refl (trim_nonempty _ Ht)).
    rewrite (invoke_valid a Ht), Hp. reflexivity.
Qed.

(** X1 at the Succeeded state with three spaces typed, and at the state with
    a topic typed. *)
Lemma X1_submit_by_topic_witness :
  fire blankTopicApp Submit = Some blankTopicApp
  /\ fire typedApp Submit = Some loadingApp.
Proof.
  split.
  - apply (proj1 (proj2 (X1_submit_by_topic blankTopicApp
                           blankTopicApp_reachable eq_refl))).
    + discriminate.
    + reflexivity.
  - apply (proj2 (proj2 (X1_submit_by_topic typedApp
                           typedApp_reachable eq_refl))).
    vm_compute. discriminate.
Defined.

(** X2: in every state the application reaches at most one call is
    outstanding, one is outstanding exactly while [loading] is set, and its
    continuation is the handler's. *)
Theorem X2_at_most_one_call_outstanding (a : App) :
  reachable a ->
  List.length (pending a) <= 1
  /\ (loading (state a) = true <-> pending a <> [])
  /\ Forall (fun resume => resume = resumeSearch) (pending a).
Proof.
  intros Hreach.
  destruct (reachable_coherent a Hreach) as [[(Hl & _) Hp]|(Hl & Hp & _)];
    rewrite Hp, Hl; simpl.
  - split; [lia|]. split; [split; [discriminate|reflexivity]|].
    constructor; [reflexivity|constructor].
  - split; [lia|]. split; [split; [discriminate|congruence]|].
    constructor.
Qed.

(** X2 while the first search is outstanding. *)
Lemma X2_at_most_one_call_witness :
  reachable loadingApp /\ List.length (pending loadingApp) <= 1.
Proof.
  split; [exact loadingApp_reachable|].
  exact (proj1 (X2_at_most_one_call_outstanding loadingApp
                  loadingApp_reachable)).
Defined.

(** X3: while a call is outstanding no submit is possible, only the one
    outstanding call can settle, and however it settles (the [finally]
    block) loading ends, nothing is left outstanding and the topic is
    kept. *)
Theorem X3_loading_ends_with_the_settlement (a : App) (o : Outcome) :
  reachable a -> loading (state a) = true ->
  fire a Submit = None
  /\ (forall n, n <> 0 -> fire a (Settle n o) = None)
  /\ exists a',
       fire a (Settle 0 o) = Some a'
       /\ loading (state a') = false
       /\ pending a' = []
       /\ topic (state a') = topic (state a).
Proof.
  intros Hreach Hl.
  destruct (loading_one_pending a Hreach Hl) as (Hp & _ & _).
  split; [|split].
  - simpl. unfold disabled. rewrite Hl. reflexivity.
  - intros n Hn. simpl. rewrite Hp.
    destruct n as [|n]; [congruence|]. destruct n; reflexivity.
  - simpl. rewrite Hp. simpl. eexists. split; [reflexivity|].
    simpl. split; [destruct o; reflexivity|]. split; [reflexivity|].
    apply commit_topic.
Qed.

(** X3 while the first search is outstanding, for a rejection. *)
Lemma X3_loading_ends_witness :
  fire loadingApp Submit = None
  /\ exists a',
       fire loadingApp (Settle 0 (Rejected {| message := None |})) = Some a'
       /\ loading (state a') = false.
Proof.
  destruct (X3_loading_ends_with_the_settlement loadingApp
              (Rejected {| message := None |}) loadingApp_reachable eq_refl)
    as (Hs & _ & a' & Hf & Hl & _).
  split; [exact Hs|]. exists a'. split; [exact Hf|exact Hl].
Defined.

(** X4: a submit whose topic passes the guard, followed by the fulfilment of
    its call, ends in Succeeded with the result made from the response, no
    error (an earlier one is cleared), nothing outstanding and the topic
    kept. *)
Theorem X4_fulfilled_search_succeeds
    (a : App) (response : GenerateContentResponse) :
  reachable a -> disabled (state a) = false ->
  trim (topic (state a)) <> [] ->
  run a [Submit; Settle 0 (Fulfilled response)]
  = Some {| state := {| topic := topic (state a); loading := false;
                        result := Some (searchResultOf response);
                        error := [] |};
            pending := [] |}.
Proof.
  intros Hreach Hd Ht.
  assert (Hl : loading (state a) = false).
  { unfold disabled in Hd. apply orb_false_iff in Hd. exact (proj1 Hd). }
  pose proof (not_loading_nothing_pending a Hreach Hl) as Hp.
  simpl. rewrite Hd, (invoke_valid a Ht), Hp. reflexivity.
Qed.

(** X4 at the scenario with two web chunks: the result holds both. *)
Lemma X4_fulfilled_search_witness :
  run typedApp [Submit; Settle 0 (Fulfilled paperResponse)] = Some succeededApp
  /\ List.length (chunks (searchResultOf paperResponse)) = 2.
Proof.
  split; [|reflexivity].
  apply (X4_fulfilled_search_succeeds typedApp paperResponse
           typedApp_reachable eq_refl).
  vm_compute. discriminate.
Defined.

(** ** What the state holds *)

Lemma fire_stored_values (a a' : App) (e : Event) :
  coherent a -> fire a e = Some a' ->
  (result (state a') = result (state a)
   \/ result (state a') = None
   \/ exists response, result (state a') = Some (searchResultOf response))
  /\ (error (state a') = error (state a)
      \/ error (state a') = []
      \/ exists err,
           error (state a') = orElse (message err) fetchErrorFallback).
Proof.
  intros Hc H. destruct e as [value| |n o]; simpl in H.
  - injection H as <-. simpl. auto.
  - destruct (disabled (state a)); [discriminate|]. injection H as <-.
    destruct (trim (topic (state a))) as [|c t] eqn:Ht.
    + rewrite (invoke_blank a Ht). auto.
    + rewrite invoke_valid by (rewrite Ht; discriminate). simpl. auto.
  - destruct Hc as [[_ Hp]|(_ & Hp & _)]; rewrite Hp in H.
    + destruct n as [|n]; simpl in H; [|destruct n; discriminate].
      injection H as <-. destruct o as [response|err]; simpl.
      * split; [right; right; exists response; reflexivity|auto].
      * split; [auto|right; right; exists err; reflexivity].
    + destruct n; discriminate.
Qed.

Lemma reachable_stored_values (a : App) :
  reachable a ->
  (result (state a) = None
   \/ exists response, result (state a) = Some (searchResultOf response))
  /\ (error (state a) = []
      \/ exists err, error (state a) = orElse (message err) fetchErrorFallback).
Proof.
  induction 1 as [|a e a' Hreach IH H].
  - simpl. auto.
  - destruct (fire_stored_values a a' e (reachable_coherent a Hreach) H)
      as [Hr He].
    destruct IH as [IHr IHe]. split.
    + destruct Hr as [->| [->|Hr]]; auto.
    + destruct He as [->| [->|He]]; auto.
Qed.

(** X5: whatever the application has stored came from the handler: a result
    is the one made from some response and its text is never empty (an empty
    or absent text was replaced by the sentinel), and an error is empty or
    the message made from some thrown value. *)
Theorem X5_stored_result_text_is_never_empty (a : App) :
  reachable a ->
  (forall r, result (state a) = Some r ->
             text r <> []
             /\ exists response, r = searchResultOf response)
  /\ (error (state a) = []
      \/ exists err, error (state a) = orElse (message err) fetchErrorFallback).
Proof.
  intros Hreach. destruct (reachable_stored_values a Hreach) as [Hr He].
  split; [|exact He].
  intros r Hres. destruct Hr as [Hr|[response Hr]]; [congruence|].
  rewrite Hr in Hres. injection Hres as <-.
  split; [|exists response; reflexivity].
  simpl. apply orElse_truthy. discriminate.
Qed.

(** X5 at the state after a fulfilled search. *)
Lemma X5_stored_result_witness :
  text (searchResultOf paperResponse) <> [].
Proof.
  exact (proj1 (proj1 (X5_stored_result_text_is_never_empty succeededApp
                         succeededApp_reachable)
                  (searchResultOf paperResponse) eq_refl)).
Defined.

(** ** The view *)

Section ViewFacts.

Variable URL_hostname : jsstring -> option jsstring.

Lemma mapChunks_throw_inv (cs : list GroundingChunk) :
  forall index,
    mapChunks URL_hostname cs index = Throw ->
    exists c w, In c cs /\ web c = Some w /\ URL_hostname (uri w) = None.
Proof.
  induction cs as [|d cs IH]; intros index H; simpl in H; [discriminate|].
  unfold renderChunk in H. destruct (web d) as [w|] eqn:Hd.
  - destruct (URL_hostname (uri w)) as [h|] eqn:Hu.
    + simpl in H.
      destruct (mapChunks URL_hostname cs (S index)) as [rest|] eqn:Hrest;
        [discriminate|].
      destruct (IH _ Hrest) as (c & w' & Hin & Hw & Hu').
      exists c, w'. split; [right; exact Hin|auto].
    + exists d, w. split; [left; reflexivity|auto].
  - simpl in H.
    destruct (mapChunks URL_hostname cs (S index)) as [rest|] eqn:Hrest;
      [discriminate|].
    destruct (IH _ Hrest) as (c & w' & Hin & Hw & Hu').
    exists c, w'. split; [right; exact Hin|auto].
Qed.

(** The fields of a view that was rendered. *)
Lemma render_fields (s : State) (v : View) :
  render URL_hostname s = Normal v ->
  inputValue v = topic s
  /\ submitDisabled v = disabled s
  /\ submitLabel v
     = (if loading s then lit "Searching..." else lit "Find Articles")
  /\ errorPanel v = (if truthy (error s) then Some (error s) else None)
  /\ (resultPanel v = None <-> result s = None).
Proof.
  unfold render. intros H.
  destruct (result s) as [r|].
  - destruct (renderResult URL_hostname r) as [p|]; simpl in H;
      [|discriminate].
    injection H as <-. simpl. repeat split; discriminate.
  - simpl in H. injection H as <-. simpl. repeat split; reflexivity.
Qed.

Lemma mapChunks_keys_ge (cs : list GroundingChunk) :
  forall index items,
    mapChunks URL_hostname cs index = Normal items ->
    forall l, In l (displayed items) -> index <= key l.
Proof.
  induction cs as [|d cs IH]; intros index items H l Hin; simpl in H.
  - injection H as <-. destruct Hin.
  - unfold renderChunk in H. destruct (web d) as [w|].
    + destruct (URL_hostname (uri w)) as [h|]; [|discriminate]. simpl in H.
      destruct (mapChunks URL_hostname cs (S index)) as [rest|] eqn:Hrest;
        [|discriminate].
      simpl in H. injection H as <-. simpl in Hin.
      destruct Hin as [<-|Hin]; [simpl; lia|].
      pose proof (IH _ _ Hrest l Hin). lia.
    + simpl in H.
      destruct (mapChunks URL_hostname cs (S index)) as [rest|] eqn:Hrest;
        [|discriminate].
      simpl in H. injection H as <-. simpl in Hin.
      pose proof (IH _ _ Hrest l Hin). lia.
Qed.

End ViewFacts.

(** X6: the render throws exactly when the state holds a result with a web
    chunk whose uri the URL constructor rejects; in every other state
    (no result, or every web uri parses) it returns a view. *)
Theorem X6_render_throws_exactly_on_a_rejected_uri
    (URL_hostname : jsstring -> option jsstring) (s : State) :
  render URL_hostname s = Throw
  <-> exists r c w,
        result s = Some r /\ In c (chunks r) /\ web c = Some w
        /\ URL_hostname (uri w) = None.
Proof.
  unfold render, renderResult, renderSidebar. split.
  - intros H. destruct (result s) as [r|]; [|discriminate].
    destruct (chunks r) as [|d cs] eqn:Hcs; [discriminate|].
    change (0 <? List.length (d :: cs)) with true in H. cbv iota in H.
    destruct (mapChunks URL_hostname (d :: cs) 0) as [items|] eqn:Hmap;
      [discriminate|].
    destruct (mapChunks_throw_inv URL_hostname _ _ Hmap)
      as (c & w & Hin & Hw & Hu).
    exists r, c, w. rewrite Hcs. auto.
  - intros (r & c & w & Hr & Hin & Hw & Hu). rewrite Hr.
    destruct (chunks r) as [|d cs] eqn:Hcs; [destruct Hin|].
    change (0 <? List.length (d :: cs)) with true. cbv iota.
    rewrite (mapChunks_throws URL_hostname (d :: cs) c w Hin Hw Hu 0).
    reflexivity.
Qed.

Lemma mapChunks_without_web
    (URL_hostname : jsstring -> option jsstring) (cs : list GroundingChunk) :
  (forall c, In c cs -> web c = None) ->
  forall index,
    mapChunks URL_hostname cs index = Normal (map (fun _ => None) cs).
Proof.
  induction cs as [|d cs IH]; intros Hall index; simpl.
  - reflexivity.
  - rewrite (renderChunk_no_web URL_hostname d index (Hall d (or_introl eq_refl))).
    simpl. rewrite IH by (intros c Hc; apply Hall; right; exact Hc).
    reflexivity.
Qed.

Lemma displayed_nulls (cs : list GroundingChunk) :
  displayed (map (fun _ => None) cs) = [].
Proof. induction cs as [|d cs IH]; [reflexivity|exact IH]. Qed.

(** X7: the "No direct source links found." notice is shown exactly when
    the chunk list is empty.  A non-empty list whose chunks all lack [web]
    is rendered as a list with one [null] per chunk: nothing is displayed,
    and no notice either. *)
Theorem X7_notice_only_for_an_empty_chunk_list
    (URL_hostname : jsstring -> option jsstring) (r : SearchResult) :
  (renderSidebar URL_hostname r = Normal NoSourceLinks <-> chunks r = [])
  /\ ((forall c, In c (chunks r) -> web c = None) -> chunks r <> [] ->
      renderSidebar URL_hostname r
      = Normal (SourceList (map (fun _ => None) (chunks r)))
      /\ displayed (map (fun _ : GroundingChunk => @None SourceLink)
                        (chunks r)) = []).
Proof.
  unfold renderSidebar. split.
  - destruct (chunks r) as [|d cs] eqn:Hcs.
    + split; reflexivity.
    + change (0 <? List.length (d :: cs)) with true. cbv iota.
      split; [|discriminate].
      destruct (mapChunks URL_hostname (d :: cs) 0); discriminate.
  - intros Hall Hne. split; [|apply displayed_nulls].
    destruct (chunks r) as [|d cs] eqn:Hcs; [congruence|].
    change (0 <? List.length (d :: cs)) with true. cbv iota.
    rewrite (mapChunks_without_web URL_hostname (d :: cs) Hall 0).
    reflexivity.
Qed.

(** X8: in a rendered source list the entry at position [i] belongs to the
    chunk at position [i]: an entry that displays something carries that
    chunk's uri as link, its title or the fallback, the hostname of the uri,
    and the position as React key; so the keys of the displayed entries are
    pairwise distinct. *)
Theorem X8_source_links_are_keyed_by_position
    (URL_hostname : jsstring -> option jsstring)
    (cs : list GroundingChunk) (index : nat)
    (items : list (option SourceLink)) :
  mapChunks URL_hostname cs index = Normal items ->
  (forall i l,
      nth_error items i = Some (Some l) ->
      exists c w h,
        nth_error cs i = Some c /\ web c = Some w
        /\ URL_hostname (uri w) = Some h
        /\ l = {| key := index + i; href := uri w;
                  linkTitle := orElse (title w) untitledSource;
                  hostname := h |})
  /\ (forall i, nth_error items i = Some None ->
                exists c, nth_error cs i = Some c /\ web c = None)
  /\ NoDup (map key (displayed items)).
Proof.
  revert index items.
  induction cs as [|d cs IH]; intros index items H; simpl in H.
  - injection H as <-. split; [|split].
    + intros i l Hi. destruct i; discriminate.
    + intros i Hi. destruct i; discriminate.
    + constructor.
  - unfold renderChunk in H. destruct (web d) as [w|] eqn:Hd.
    + destruct (URL_hostname (uri w)) as [h|] eqn:Hu; [|discriminate].
      simpl in H.
      destruct (mapChunks URL_hostname cs (S index)) as [rest|] eqn:Hrest;
        [|discriminate].
      simpl in H. injection H as <-.
      destruct (IH _ _ Hrest) as (Hsome & Hnone & Hnodup).
      split; [|split].
      * intros i l Hi. destruct i as [|i]; simpl in Hi.
        -- injection Hi as <-. exists d, w, h.
           rewrite Nat.add_0_r. auto.
        -- destruct (Hsome i l Hi) as (c & w' & h' & Hc & Hw & Hh & ->).
           exists c, w', h'. simpl.
           replace (index + S i) with (S index + i) by lia. auto.
      * intros i Hi. destruct i as [|i]; simpl in Hi; [discriminate|].
        exact (Hnone i Hi).
      * simpl. constructor; [|exact Hnodup].
        intros Hin. apply in_map_iff in Hin. destruct Hin as (l & Hk & Hl).
        pose proof (mapChunks_keys_ge URL_hostname cs _ _ Hrest l Hl). lia.
    + simpl in H.
      destruct (mapChunks URL_hostname cs (S index)) as [rest|] eqn:Hrest;
        [|discriminate].
      simpl in H. injection H as <-.
      destruct (IH _ _ Hrest) as (Hsome & Hnone & Hnodup).
      split; [|split].
      * intros i l Hi. destruct i as [|i]; simpl in Hi; [discriminate|].
        destruct (Hsome i l Hi) as (c & w' & h' & Hc & Hw & Hh & ->).
        exists c, w', h'. simpl.
        replace (index + S i) with (S index + i) by lia. auto.
      * intros i Hi. destruct i as [|i]; simpl in Hi.
        -- exists d. auto.
        -- exact (Hnone i Hi).
      * exact Hnodup.
Qed.

(** X8 at a list of a chunk without web data followed by one with: the link
    keeps key 1. *)
Lemma X8_source_links_witness :
  mapChunks schemeHostname
    [noWebChunk; chunkOf "https://example.org/b" None] 0
  = Normal [None;
            Some {| key := 1; href := lit "https://example.org/b";
                    linkTitle := lit "Untitled Source";
                    hostname := lit "example.org" |}]
  /\ NoDup (map key
              (displayed
                 [None;
                  Some {| key := 1; href := lit "https://example.org/b";
                          linkTitle := lit "Untitled Source";
                          hostname := lit "example.org" |}])).
Proof.
  split; [reflexivity|].
  exact (proj2 (proj2
    (X8_source_links_are_keyed_by_position schemeHostname
       [noWebChunk; chunkOf "https://example.org/b" None] 0 _ eq_refl))).
Defined.

(** X9: a view the application renders shows one request state at a time:
    the label reads "Searching..." exactly while loading, and then the button
    is disabled and neither panel is shown; the error panel and the result
    panel are never shown together; the input shows the topic. *)
Theorem X9_view_shows_one_request_state
    (URL_hostname : jsstring -> option jsstring) (a : App) (v : View) :
  reachable a -> render URL_hostname (state a) = Normal v ->
  inputValue v = topic (state a)
  /\ (submitLabel v = lit "Searching..." <-> loading (state a) = true)
  /\ (loading (state a) = true ->
      submitDisabled v = true /\ errorPanel v = None /\ resultPanel v = None)
  /\ (errorPanel v = None \/ resultPanel v = None).
Proof.
  intros Hreach Hv.
  destruct (render_fields URL_hostname _ _ Hv)
    as (Hin & Hdis & Hlab & Herr & Hres).
  split; [exact Hin|]. rewrite Hlab, Hdis, Herr. unfold disabled.
  destruct (reachable_coherent a Hreach)
    as [[(Hl & Hr & He) _]|(Hl & _ & Hre)]; rewrite Hl.
  - rewrite He. simpl. split; [split; reflexivity|].
    split; [intros _|left; reflexivity].
    split; [reflexivity|]. split; [reflexivity|]. apply Hres. exact Hr.
  - split; [split; discriminate|]. split; [discriminate|].
    destruct Hre as [Hr|He].
    + right. apply Hres. exact Hr.
    + left. rewrite He. reflexivity.
Qed.

(** X9 at the state after a fulfilled search. *)
Lemma X9_view_witness :
  exists v,
    render schemeHostname (state succeededApp) = Normal v
    /\ (errorPanel v = None \/ resultPanel v = None).
Proof.
  eexists. split; [reflexivity|].
  exact (proj2 (proj2 (proj2
    (X9_view_shows_one_request_state schemeHostname succeededApp _
       succeededApp_reachable eq_refl)))).
Defined.

(** X10: a fulfilled response that lacks the grounding information at any
    level (no candidates, an empty candidate list, a first candidate without
    grounding metadata, metadata without a chunk list, or an empty chunk
    list) gives a result with no chunks, and the result renders, without
    throwing, as its text beside the "No direct source links found."
    notice. *)
Theorem X10_missing_grounding_data_shows_the_notice
    (URL_hostname : jsstring -> option jsstring)
    (response : GenerateContentResponse) :
  candidates response = None
  \/ candidates response = Some []
  \/ (exists c rest,
        candidates response = Some (c :: rest)
        /\ (groundingMetadata c = None
            \/ exists gm,
                 groundingMetadata c = Some gm
                 /\ (groundingChunks gm = None
                     \/ groundingChunks gm = Some []))) ->
  chunks (searchResultOf response) = []
  /\ renderResult URL_hostname (searchResultOf response)
     = Normal {| markdown := orElse (response_text response) noResultsFound;
                 sources := NoSourceLinks |}.
Proof.
  intros H.
  assert (Hcs : groundingChunksOf response = []).
  { unfold groundingChunksOf.
    destruct H as [->|[->|(c & rest & -> & [->|(gm & -> & [->| ->])])]];
      reflexivity. }
  unfold renderResult, renderSidebar, searchResultOf. simpl.
  rewrite Hcs. split; reflexivity.
Qed.

(** X10 at a response without candidates. *)
Lemma X10_missing_grounding_witness :
  renderResult schemeHostname (searchResultOf bareResponse)
  = Normal {| markdown := lit "**Paper A**..."; sources := NoSourceLinks |}.
Proof.
  exact (proj2 (X10_missing_grounding_data_shows_the_notice schemeHostname
                  bareResponse (or_introl eq_refl))).
Defined.

(** ** The prompt *)

(** X11: the topic goes into the prompt unchanged, so the prompt determines
    the topic: two topics give the same prompt only if they are equal, and
    the prompt is 419 code units longer than the topic. *)
Theorem X11_prompt_determines_the_topic (t1 t2 : jsstring) :
  (prompt t1 = prompt t2 <-> t1 = t2)
  /\ List.length (prompt t1) = 419 + List.length t1.
Proof.
  split.
  - split; [|intros ->; reflexivity].
    unfold prompt. intros H.
    apply app_inv_head in H. apply app_inv_head in H.
    apply app_inv_tail in H. exact H.
  - unfold prompt. rewrite !length_app.
    change (List.length promptHead) with 131.
    change (List.length promptTail) with 286.
    simpl. lia.
Qed.

(** ** The handler run again before its call has settled *)

(** X12: the handler itself does not guard against being run again while
    its call is outstanding (only the disabled button does).  Run twice on a
    topic that passes the guard, it leaves two calls outstanding; when the
    first is fulfilled loading is cleared although a call is still
    outstanding, and when the second is then rejected its error is stored
    beside the first call's result. *)
Theorem X12_rerun_handler_overlaps
    (a : App) (response : GenerateContentResponse) (err : ErrorValue) :
  reachable a -> loading (state a) = false ->
  trim (topic (state a)) <> [] ->
  pending (invokeHandleSearch (invokeHandleSearch a))
  = [resumeSearch; resumeSearch]
  /\ exists a1 a2,
       fire (invokeHandleSearch (invokeHandleSearch a))
            (Settle 0 (Fulfilled response)) = Some a1
       /\ loading (state a1) = false /\ pending a1 = [resumeSearch]
       /\ fire a1 (Settle 0 (Rejected err)) = Some a2
       /\ result (state a2) = Some (searchResultOf response)
       /\ error (state a2) = orElse (message err) fetchErrorFallback
       /\ error (state a2) <> []
       /\ pending a2 = [].
Proof.
  intros Hreach Hl Ht.
  pose proof (not_loading_nothing_pending a Hreach Hl) as Hp.
  rewrite (invoke_valid a Ht), Hp.
  rewrite invoke_valid by exact Ht. simpl.
  split; [reflexivity|].
  eexists. eexists. split; [reflexivity|]. simpl.
  split; [reflexivity|]. split; [reflexivity|]. split; [reflexivity|].
  simpl. split; [reflexivity|]. split; [reflexivity|].
  split; [apply orElse_truthy; discriminate|reflexivity].
Qed.

(** X12 from the state with a topic typed. *)
Lemma X12_rerun_handler_witness :
  pending (invokeHandleSearch (invokeHandleSearch typedApp))
  = [resumeSearch; resumeSearch].
Proof.
  apply (X12_rerun_handler_overlaps typedApp paperResponse
           {| message := None |} typedApp_reachable eq_refl).
  vm_compute. discriminate.
Defined.

(** ** The calls of a run *)

Lemma length_removeAt {A : Type} (n : nat) (l : list A) (x : A) :
  nth_error l n = Some x -> S (List.length (removeAt n l)) = List.length l.
Proof.
  intros H.
  assert (Hn : n < List.length l)
    by (apply nth_error_Some; rewrite H; discriminate).
  unfold removeAt. rewrite length_app, length_firstn, length_skipn. lia.
Qed.

Lemma fire_calls (a a' : App) (e : Event) :
  fire a e = Some a' ->
  List.length (callsOfEvent a e) + List.length (pending a)
  = (if isSettle e then 1 else 0) + List.length (pending a')
  /\ List.length (callsOfEvent a e) <= (if isSubmit e then 1 else 0)
  /\ Forall (fun call =>
               call = request (topic (state a))
               /\ trim (topic (state a)) <> []
               /\ topic (state a') = topic (state a))
            (callsOfEvent a e).
Proof.
  intros H. destruct e as [value| |n o]; simpl in H |- *.
  - injection H as <-. simpl. repeat split; auto.
  - destruct (disabled (state a)); [discriminate|]. injection H as <-.
    destruct (trim (topic (state a))) as [|c t] eqn:Ht.
    + rewrite (invoke_blank a Ht), (handleSearch_blank _ Ht). simpl.
      repeat split; auto.
    + assert (Hne : trim (topic (state a)) <> [])
        by (rewrite Ht; discriminate).
      rewrite (invoke_valid a Hne), (handleSearch_valid _ Hne). simpl.
      rewrite length_app. simpl. split; [lia|]. split; [lia|].
      constructor; [|constructor]. rewrite <- Ht. auto.
  - destruct (nth_error (pending a) n) as [resume|] eqn:Hn; [|discriminate].
    injection H as <-. simpl.
    rewrite <- (length_removeAt n (pending a) resume Hn).
    repeat split; auto.
Qed.

(** X13: over any run of events, calls are issued by submits only, at most
    one per submit, and none is lost or invented: the calls issued plus the
    calls outstanding before equal the settlements plus the calls
    outstanding after.  Every call carries the prompt of a topic that passes
    the guard, with the search tool. *)
Theorem X13_calls_of_a_run_are_accounted_for
    (events : list Event) (a a' : App) :
  run a events = Some a' ->
  List.length (callsOfRun a events) + List.length (pending a)
  = List.length (filter isSettle events) + List.length (pending a')
  /\ List.length (callsOfRun a events)
     <= List.length (filter isSubmit events)
  /\ Forall (fun call =>
               exists t, trim t <> [] /\ call = request t
                         /\ contents call = prompt t
                         /\ config_tools call = [googleSearch])
            (callsOfRun a events).
Proof.
  revert a. induction events as [|e events IH]; intros a H; simpl in H |- *.
  - injection H as <-. split; [reflexivity|]. split; [lia|constructor].
  - destruct (fire a e) as [a1|] eqn:He; [|discriminate].
    destruct (fire_calls a a1 e He) as (Hcount & Hle & Hcalls).
    destruct (IH a1 H) as (IHcount & IHle & IHcalls).
    rewrite length_app. split; [|split].
    + destruct (isSettle e); simpl; lia.
    + destruct (isSubmit e); simpl; lia.
    + apply Forall_app. split; [|exact IHcalls].
      eapply Forall_impl; [|exact Hcalls].
      intros call (-> & Ht & _). exists (topic (state a)). auto.
Qed.

(** X13 at a search that is submitted and fulfilled. *)
Lemma X13_calls_of_a_run_witness :
  callsOfRun typedApp [Submit; Settle 0 (Fulfilled paperResponse)]
  = [request (lit "CRISPR")]
  /\ List.length
       (callsOfRun typedApp [Submit; Settle 0 (Fulfilled paperResponse)])
     + List.length (pending typedApp)
     = 1 + List.length (pending succeededApp).
Proof.
  split; [reflexivity|].
  exact (proj1 (X13_calls_of_a_run_are_accounted_for
                  [Submit; Settle 0 (Fulfilled paperResponse)]
                  typedApp succeededApp eq_refl)).
Defined.
